(** * OpenLineage Airflow integration: the extractor contract

    A shallow embedding of
    [integration/airflow/openlineage/airflow/extractors/base.py]:
    the [TaskMetadata] value class and the [BaseExtractor] abstract class.

    Python objects live in a heap indexed by locations; methods are
    state-passing computations that either return a value or raise an
    exception, keeping whatever they wrote to the heap before raising. *)

From stdpp Require Import gmap strings list fin_maps.

Local Open Scope string_scope.

(** ** Python values and exceptions *)

(** [openlineage.client.run.Dataset]: the core only relies on its
    namespace and name. *)
Record Dataset := mkDataset { ds_namespace : string; ds_name : string }.

(** [openlineage.client.facet.BaseFacet]: an opaque payload. *)
Inductive BaseFacet := Facet (payload : string).

Abbreviation loc := positive.

(** The values that reach this module.  [VRef] is a reference to a heap
    object (an operator, a task instance, an extractor); [VNothing] is
    [attr.NOTHING], the sentinel with which attrs marks an argument that
    was not given. *)
Inductive pyval :=
| VNone
| VNothing
| VStr (s : string)
| VInt (z : Z)
| VList (xs : list Dataset)
| VDict (m : gmap string BaseFacet)
| VRef (l : loc).

(** The exception classes raised by the code below, and [Exception] for
    whatever a subclass raises on its own. *)
Inductive exn :=
| AssertionError
| NotImplementedError
| TypeError
| AttributeError
| SystemError
| Exception (msg : string).

Inductive result (A : Type) :=
| Ok (a : A)
| Raise (e : exn).
Arguments Ok {A} a.
Arguments Raise {A} e.

(** ** Calling a Python function: binding arguments to parameters

    A call [f] with positional arguments [args] and keyword arguments
    [kwargs], for a function whose parameters are all
    positional-or-keyword: positional arguments fill the parameters from
    the left, keyword arguments fill them by name.  Too many positional
    arguments, an unknown keyword and a parameter filled twice are each a
    [TypeError]. *)

Fixpoint bind_positional (params : list string) (args : list pyval)
    (bound : gmap string pyval) {struct args} : result (gmap string pyval) :=
  match args with
  | [] => Ok bound
  | a :: args' =>
      match params with
      | [] => Raise TypeError
      | p :: params' => bind_positional params' args' (<[p := a]> bound)
      end
  end.

Fixpoint bind_keywords (params : list string) (kwargs : list (string * pyval))
    (bound : gmap string pyval) : result (gmap string pyval) :=
  match kwargs with
  | [] => Ok bound
  | (k, v) :: kwargs' =>
      if bool_decide (k ∈ params) then
        match bound !! k with
        | Some _ => Raise TypeError
        | None => bind_keywords params kwargs' (<[k := v]> bound)
        end
      else Raise TypeError
  end.

Definition bind_arguments (params : list string) (args : list pyval)
    (kwargs : list (string * pyval)) : result (gmap string pyval) :=
  match bind_positional params args ∅ with
  | Ok bound => bind_keywords params kwargs bound
  | Raise e => Raise e
  end.

(** ** TaskMetadata *)

(** The instance attributes of the [attr.s] class.  Nothing validates
    them, so each holds whatever value was passed. *)
Record TaskMetadata := mkTaskMetadata {
  name : pyval;
  inputs : pyval;
  outputs : pyval;
  run_facets : pyval;
  job_facets : pyval
}.

(** The [attr.ib()] declarations in order: the parameters of the
    generated [__init__]. *)
Definition TaskMetadata_params : list string :=
  ["name"; "inputs"; "outputs"; "run_facets"; "job_facets"].

(** [attr.ib(factory=list)] and [attr.ib(factory=dict)]. *)
Definition factory_list : pyval := VList [].
Definition factory_dict : pyval := VDict ∅.

(** The generated [__init__] gives each attribute with a factory the
    default [NOTHING] and stores
    [v if v is not NOTHING else factory()]. *)
Definition from_factory (factory : pyval) (arg : option pyval) : pyval :=
  match default VNothing arg with
  | VNothing => factory
  | v => v
  end.

(** The call of [TaskMetadata] with positional arguments [args] and
    keyword arguments [kwargs]: [name] has no default and is stored as
    passed; the other attributes call their factory when they were not
    passed, or passed as [NOTHING]. *)
Definition TaskMetadata_init (args : list pyval)
    (kwargs : list (string * pyval)) : result TaskMetadata :=
  match bind_arguments TaskMetadata_params args kwargs with
  | Raise e => Raise e
  | Ok bound =>
      match bound !! "name" with
      | None => Raise TypeError
      | Some n =>
          Ok {| name := n;
                inputs := from_factory factory_list (bound !! "inputs");
                outputs := from_factory factory_list (bound !! "outputs");
                run_facets :=
                  from_factory factory_dict (bound !! "run_facets");
                job_facets :=
                  from_factory factory_dict (bound !! "job_facets") |}
      end
  end.

(** Whether a call passes a value for attribute [f]. *)
Definition position (params : list string) (f : string) : option nat :=
  fst <$> list_find (λ p, p = f) params.

Definition passed_positionally (f : string) (args : list pyval) : bool :=
  match position TaskMetadata_params f with
  | Some i => bool_decide (i < length args)
  | None => false
  end.

Definition passed_by_keyword (f : string)
    (kwargs : list (string * pyval)) : bool :=
  bool_decide (f ∈ kwargs.*1).

Definition omitted (f : string) (args : list pyval)
    (kwargs : list (string * pyval)) : bool :=
  negb (passed_positionally f args) && negb (passed_by_keyword f kwargs).

(** A call the generated [__init__] accepts as far as binding goes: no
    more positional arguments than attributes, every keyword an attribute
    name, and no attribute passed twice. *)
Definition well_formed_call (args : list pyval)
    (kwargs : list (string * pyval)) : Prop :=
  (length args ≤ length TaskMetadata_params)%nat ∧
  NoDup kwargs.*1 ∧
  ∀ k, k ∈ kwargs.*1 →
       k ∈ TaskMetadata_params ∧ passed_positionally k args = false.

(** [md.f]: reading an attribute of a record by its name. *)
Definition TaskMetadata_getattr (md : TaskMetadata) (f : string)
    : result pyval :=
  if decide (f = "name") then Ok (name md)
  else if decide (f = "inputs") then Ok (inputs md)
  else if decide (f = "outputs") then Ok (outputs md)
  else if decide (f = "run_facets") then Ok (run_facets md)
  else if decide (f = "job_facets") then Ok (job_facets md)
  else Raise AttributeError.

(** ** The heap and the computations over it *)

(** A heap object: the name of its class ([o.__class__.__name__]) and its
    instance attributes ([o.__dict__]). *)
Record object := mkObject {
  obj_class : string;
  obj_attrs : gmap string pyval
}.

Abbreviation heap := (gmap loc object).

(** A computation reads and writes the heap and ends with a value or an
    exception; the heap it leaves is returned in both cases. *)
Definition M (A : Type) : Type := heap → result A * heap.

Definition ret {A} (a : A) : M A := λ h, (Ok a, h).

Definition raise {A} (e : exn) : M A := λ h, (Raise e, h).

Definition bind {A B} (m : M A) (k : A → M B) : M B :=
  λ h, match m h with
       | (Ok a, h') => k a h'
       | (Raise e, h') => (Raise e, h')
       end.

Notation "'let*' x ':=' m 'in' k" := (bind m (λ x, k))
  (at level 10, x binder, m at level 200, k at level 200).

Definition lift_result {A} (r : result A) : M A := λ h, (r, h).

(** [o.a]; a location outside the heap cannot be reached from Python and
    is reported as [SystemError]. *)
Definition getattr (o : loc) (a : string) : M pyval :=
  λ h, match h !! o with
       | None => (Raise SystemError, h)
       | Some ob =>
           match obj_attrs ob !! a with
           | Some v => (Ok v, h)
           | None => (Raise AttributeError, h)
           end
       end.

(** [o.a = v] *)
Definition setattr (o : loc) (a : string) (v : pyval) : M unit :=
  λ h, match h !! o with
       | None => (Raise SystemError, h)
       | Some ob =>
           (Ok tt, <[o := {| obj_class := obj_class ob;
                             obj_attrs := <[a := v]> (obj_attrs ob) |}]> h)
       end.

(** [v.__class__.__name__] *)
Definition class_name_of (v : pyval) : M string :=
  λ h, match v with
       | VNone => (Ok "NoneType", h)
       | VNothing => (Ok "_Nothing", h)
       | VStr _ => (Ok "str", h)
       | VInt _ => (Ok "int", h)
       | VList _ => (Ok "list", h)
       | VDict _ => (Ok "dict", h)
       | VRef l =>
           match h !! l with
           | Some ob => (Ok (obj_class ob), h)
           | None => (Raise SystemError, h)
           end
       end.

(** [assert e].  The statement is compiled as
    [if __debug__: if not e: raise AssertionError]; [__debug__] is true
    unless the interpreter runs with [-O] or [PYTHONOPTIMIZE], in which
    case the statement is removed and [e] is not evaluated. *)
Definition py_assert (debug : bool) (e : M bool) : M unit :=
  if debug then
    let* b := e in
    if b then ret tt else raise AssertionError
  else ret tt.

(** [x in xs] for a list of strings. *)
Definition py_in (x : string) (xs : list string) : bool :=
  bool_decide (x ∈ xs).

(** ** BaseExtractor and its subclasses *)

(** A subclass of [BaseExtractor]: its name and, for each method a subclass
    is meant to provide, its own definition when it has one.  [self] is the
    location of the instance; [__init__] and [validate] are the base
    class's. *)
Record ExtractorClass := mkExtractorClass {
  cls_name : string;
  cls_patch : option (loc → M unit);
  cls_get_operator_classnames : option (M (list string));
  cls_extract : option (loc → M (option TaskMetadata));
  cls_extract_on_complete :
    option (loc → pyval → M (option TaskMetadata))
}.

(** The subclass of [cls] that defines [patch] as [p]. *)
Definition with_patch (cls : ExtractorClass) (p : loc → M unit)
    : ExtractorClass :=
  {| cls_name := cls_name cls;
     cls_patch := Some p;
     cls_get_operator_classnames := cls_get_operator_classnames cls;
     cls_extract := cls_extract cls;
     cls_extract_on_complete := cls_extract_on_complete cls |}.

(** [BaseExtractor.patch]: [pass]. *)
Definition BaseExtractor_patch (self : loc) : M unit := ret tt.

(** [self.patch()] on an instance of [cls]. *)
Definition patch (cls : ExtractorClass) (self : loc) : M unit :=
  match cls_patch cls with
  | Some f => f self
  | None => BaseExtractor_patch self
  end.

(** [BaseExtractor.get_operator_classnames], a classmethod. *)
Definition BaseExtractor_get_operator_classnames : M (list string) :=
  raise NotImplementedError.

(** [cls.get_operator_classnames()], also reached as
    [self.get_operator_classnames()]. *)
Definition get_operator_classnames (cls : ExtractorClass) : M (list string) :=
  match cls_get_operator_classnames cls with
  | Some f => f
  | None => BaseExtractor_get_operator_classnames
  end.

(** [BaseExtractor.validate], under the interpreter mode [debug].  The
    left operand of [in] is evaluated before the call on the right. *)
Definition BaseExtractor_validate (debug : bool) (cls : ExtractorClass)
    (self : loc) : M unit :=
  py_assert debug
    (let* operator := getattr self "operator" in
     let* n := class_name_of operator in
     let* classnames := get_operator_classnames cls in
     ret (py_in n classnames)).

(** [BaseExtractor.extract]: abstract, its body is [pass]. *)
Definition BaseExtractor_extract (self : loc) : M (option TaskMetadata) :=
  ret None.

(** [self.extract()] on an instance of [cls]. *)
Definition extract (cls : ExtractorClass) (self : loc)
    : M (option TaskMetadata) :=
  match cls_extract cls with
  | Some f => f self
  | None => BaseExtractor_extract self
  end.

(** [BaseExtractor.extract_on_complete] *)
Definition BaseExtractor_extract_on_complete (cls : ExtractorClass)
    (self : loc) (task_instance : pyval) : M (option TaskMetadata) :=
  extract cls self.

(** [self.extract_on_complete(task_instance)] on an instance of [cls]. *)
Definition extract_on_complete (cls : ExtractorClass) (self : loc)
    (task_instance : pyval) : M (option TaskMetadata) :=
  match cls_extract_on_complete cls with
  | Some f => f self task_instance
  | None => BaseExtractor_extract_on_complete cls self task_instance
  end.

(** Allocation of a new, attribute-less object of class [cn]. *)
Definition alloc (cn : string) : M loc :=
  λ h, let l := fresh (dom h) in
       (Ok l, <[l := {| obj_class := cn; obj_attrs := ∅ |}]> h).

Section Construction.

(** [LoggingMixin.__init__] comes from [openlineage.airflow.utils].  It
    is called with no argument other than [self], before [self.operator]
    is assigned: it is taken as a parameter acting on the instance's own
    attributes. *)
Variable LoggingMixin_init : gmap string pyval → gmap string pyval.

(** [super().__init__()] *)
Definition super_init (self : loc) : M unit :=
  λ h, match h !! self with
       | None => (Raise SystemError, h)
       | Some ob =>
           let ob' := {| obj_class := obj_class ob;
                         obj_attrs := LoggingMixin_init (obj_attrs ob) |} in
           (Ok tt, <[self := ob']> h)
       end.

(** [BaseExtractor.__init__] *)
Definition BaseExtractor_init (cls : ExtractorClass) (self : loc)
    (operator : pyval) : M unit :=
  let* _ := super_init self in
  let* _ := setattr self "operator" operator in
  patch cls self.

(** The call [cls(operator)].  [ABCMeta] refuses to instantiate a class
    that leaves the abstract method [extract] undefined. *)
Definition instantiate (cls : ExtractorClass) (operator : pyval) : M loc :=
  match cls_extract cls with
  | None => raise TypeError
  | Some _ =>
      let* self := alloc (cls_name cls) in
      let* _ := BaseExtractor_init cls self operator in
      ret self
  end.

(** The instance as [__init__] leaves it just before calling [patch], and
    the heap [h] extended with it at the next free location. *)
Definition bound_instance (cls : ExtractorClass) (operator : pyval) : object :=
  {| obj_class := cls_name cls;
     obj_attrs := <["operator" := operator]> (LoggingMixin_init ∅) |}.

Definition with_instance (cls : ExtractorClass) (operator : pyval)
    (h : heap) : heap :=
  <[fresh (dom h) := bound_instance cls operator]> h.

End Construction.

(** ** Sample subclasses and heaps

    Small subclasses in the style of the integration's extractors, used to
    run the contract on concrete inputs. *)

(** Declares the operator and its deprecated alias, as the docstring of
    [get_operator_classnames] describes; [extract] names the task after
    the operator's [task_id]. *)
Definition BigQueryExtractor : ExtractorClass := {|
  cls_name := "BigQueryExtractor";
  cls_patch := None;
  cls_get_operator_classnames :=
    Some (ret ["BigQueryOperator"; "BigQueryExecuteQueryOperator"]);
  cls_extract :=
    Some (λ self,
      let* operator := getattr self "operator" in
      match operator with
      | VRef o =>
          let* task_id := getattr o "task_id" in
          let* md := lift_result (TaskMetadata_init [task_id] []) in
          ret (Some md)
      | _ => ret None
      end);
  cls_extract_on_complete := None
|}.

(** Overrides [patch] to count, on the operator, how often it ran. *)
Definition CountingExtractor : ExtractorClass := {|
  cls_name := "CountingExtractor";
  cls_patch :=
    Some (λ self,
      let* operator := getattr self "operator" in
      match operator with
      | VRef o =>
          λ h, match getattr o "patched" h with
               | (Ok (VInt n), h') => setattr o "patched" (VInt (n + 1)) h'
               | (_, h') => setattr o "patched" (VInt 1) h'
               end
      | _ => ret tt
      end);
  cls_get_operator_classnames := Some (ret ["BigQueryOperator"]);
  cls_extract := Some (λ _, ret None);
  cls_extract_on_complete := None
|}.

(** Provides [extract] only. *)
Definition UndeclaredExtractor : ExtractorClass := {|
  cls_name := "UndeclaredExtractor";
  cls_patch := None;
  cls_get_operator_classnames := None;
  cls_extract := Some (λ _, ret None);
  cls_extract_on_complete := None
|}.

Definition sample_LoggingMixin_init (attrs : gmap string pyval)
    : gmap string pyval :=
  <["_log" := VNone]> attrs.

(** A [LoggingMixin.__init__] that assigns no attribute. *)
Definition plain_LoggingMixin_init (attrs : gmap string pyval)
    : gmap string pyval :=
  attrs.

(** Its [get_operator_classnames] fails an assertion of its own. *)
Definition AssertingExtractor : ExtractorClass := {|
  cls_name := "AssertingExtractor";
  cls_patch := None;
  cls_get_operator_classnames := Some (raise AssertionError);
  cls_extract := Some (λ _, ret None);
  cls_extract_on_complete := None
|}.

Definition bigquery_operator : object :=
  {| obj_class := "BigQueryOperator";
     obj_attrs := {["task_id" := VStr "load_events"]} |}.

Definition postgres_operator : object :=
  {| obj_class := "PostgresOperator";
     obj_attrs := {["task_id" := VStr "copy_rows"]} |}.

(** Two operators, at locations 1 and 2. *)
Definition sample_heap : heap :=
  {[ 1%positive := bigquery_operator; 2%positive := postgres_operator ]}.

(** An extractor of class [cn] at location 3, bound to the operator at
    [operator]. *)
Definition bound_heap (cn : string) (operator : loc) : heap :=
  <[3%positive := {| obj_class := cn;
                     obj_attrs := {["operator" := VRef operator]} |}]>
    sample_heap.

(** A second BigQuery task, with other attributes, at location 1. *)
Definition other_bigquery_heap : heap :=
  <[1%positive := {| obj_class := "BigQueryOperator";
                     obj_attrs := {["task_id" := VStr "export";
                                    "sql" := VStr "SELECT 1"]} |}]>
    (bound_heap "BigQueryExtractor" 1%positive).

(** * Properties *)

(** ** Argument binding *)

Lemma bind_positional_error params args bound e :
  bind_positional params args bound = Raise e → e = TypeError.
Proof.
  revert params bound.
  induction args as [|a args IH]; intros params bound H; simpl in H.
  - done.
  - destruct params as [|p params]; [congruence | eauto].
Qed.

Lemma bind_keywords_error params kwargs bound e :
  bind_keywords params kwargs bound = Raise e → e = TypeError.
Proof.
  revert bound.
  induction kwargs as [|[k v] kwargs IH]; intros bound H; simpl in H.
  - done.
  - case_bool_decide; [|congruence].
    destruct (bound !! k); [congruence | eauto].
Qed.

Lemma bind_arguments_error params args kwargs e :
  bind_arguments params args kwargs = Raise e → e = TypeError.
Proof.
  unfold bind_arguments.
  destruct (bind_positional params args ∅) eqn:Hp.
  - apply bind_keywords_error.
  - intros [= <-]. eapply bind_positional_error, Hp.
Qed.

(** A parameter beyond the positional arguments keeps what it had. *)
Lemma bind_positional_lookup_beyond params args bound bound' f :
  bind_positional params args bound = Ok bound' →
  (∀ i, i < length args → params !! i ≠ Some f) →
  bound' !! f = bound !! f.
Proof.
  revert params bound.
  induction args as [|a args IH]; intros params bound H Hf; simpl in H.
  - congruence.
  - destruct params as [|p params]; [done|].
    rewrite (IH _ _ H).
    + apply lookup_insert_ne. intros ->. by apply (Hf 0); [simpl; lia|].
    + intros i Hi. apply (Hf (S i)). simpl. lia.
Qed.

Lemma bind_keywords_lookup_absent params kwargs bound bound' f :
  bind_keywords params kwargs bound = Ok bound' →
  f ∉ kwargs.*1 →
  bound' !! f = bound !! f.
Proof.
  revert bound.
  induction kwargs as [|[k v] kwargs IH]; intros bound H Hf; simpl in *.
  - congruence.
  - case_bool_decide; [|done].
    destruct (bound !! k) eqn:Hk; [done|].
    apply not_elem_of_cons in Hf as [Hne Hf].
    rewrite (IH _ H Hf). by apply lookup_insert_ne.
Qed.

(** Every bound value was passed by the caller. *)
Lemma bind_positional_values params args bound bound' f v :
  bind_positional params args bound = Ok bound' →
  bound' !! f = Some v →
  bound !! f = Some v ∨ v ∈ args.
Proof.
  revert params bound.
  induction args as [|a args IH]; intros params bound H Hv; simpl in H.
  - left. congruence.
  - destruct params as [|p params]; [done|].
    destruct (IH _ _ H Hv) as [Hb | Hin].
    + apply lookup_insert_Some in Hb as [[_ <-] | [_ Hb]].
      * right. apply elem_of_cons. by left.
      * by left.
    + right. apply elem_of_cons. by right.
Qed.

Lemma bind_keywords_values params kwargs bound bound' f v :
  bind_keywords params kwargs bound = Ok bound' →
  bound' !! f = Some v →
  bound !! f = Some v ∨ v ∈ kwargs.*2.
Proof.
  revert bound.
  induction kwargs as [|[k w] kwargs IH]; intros bound H Hv; simpl in *.
  - left. congruence.
  - case_bool_decide; [|done].
    destruct (bound !! k) eqn:Hk; [done|].
    destruct (IH _ H Hv) as [Hb | Hin].
    + apply lookup_insert_Some in Hb as [[_ <-] | [_ Hb]].
      * right. apply elem_of_cons. by left.
      * by left.
    + right. apply elem_of_cons. by right.
Qed.

Lemma bind_arguments_values params args kwargs bound f v :
  bind_arguments params args kwargs = Ok bound →
  bound !! f = Some v →
  v ∈ args ∨ v ∈ kwargs.*2.
Proof.
  unfold bind_arguments.
  destruct (bind_positional params args ∅) as [b0|] eqn:Hp; [|done].
  intros Hk Hv.
  destruct (bind_keywords_values _ _ _ _ _ _ Hk Hv) as [Hb | ?]; [|by right].
  destruct (bind_positional_values _ _ _ _ _ _ Hp Hb) as [He | ?]; [|by left].
  by rewrite lookup_empty in He.
Qed.

(** ** TaskMetadata *)

Lemma passed_positionally_false f args :
  passed_positionally f args = false →
  ∀ i, i < length args → TaskMetadata_params !! i ≠ Some f.
Proof.
  unfold passed_positionally, position. intros Hp i Hi Hlook.
  destruct (list_find _ TaskMetadata_params) as [[j p]|] eqn:Hfind; simpl in Hp.
  - apply bool_decide_eq_false in Hp.
    apply list_find_Some in Hfind as (_ & _ & Hmin).
    destruct (decide (i < j)) as [Hlt|]; [|lia].
    by apply (Hmin i f Hlook Hlt).
  - apply list_find_None in Hfind.
    eapply Forall_lookup_1 in Hfind; [|exact Hlook]. by apply Hfind.
Qed.

Lemma passed_positionally_true f args :
  passed_positionally f args = true →
  ∃ i, TaskMetadata_params !! i = Some f ∧ i < length args.
Proof.
  unfold passed_positionally, position. intros Hp.
  destruct (list_find _ TaskMetadata_params) as [[j p]|] eqn:Hfind;
    simpl in Hp; [|done].
  apply bool_decide_eq_true in Hp.
  apply list_find_Some in Hfind as (Hj & -> & _). eauto.
Qed.

Lemma omitted_spec f args kwargs :
  omitted f args kwargs = true →
  (∀ i, i < length args → TaskMetadata_params !! i ≠ Some f) ∧
  f ∉ kwargs.*1.
Proof.
  unfold omitted, passed_by_keyword.
  intros [Hp Hk]%andb_prop. apply negb_true_iff in Hp, Hk.
  split; [by apply passed_positionally_false|].
  by apply bool_decide_eq_false in Hk.
Qed.

Lemma bind_arguments_omitted f args kwargs bound :
  bind_arguments TaskMetadata_params args kwargs = Ok bound →
  omitted f args kwargs = true →
  bound !! f = None.
Proof.
  unfold bind_arguments.
  destruct (bind_positional _ args ∅) as [b0|] eqn:Hp; [|done].
  intros Hk [Hpos Hkw]%omitted_spec.
  rewrite (bind_keywords_lookup_absent _ _ _ _ _ Hk Hkw).
  rewrite (bind_positional_lookup_beyond _ _ _ _ _ Hp Hpos).
  apply lookup_empty.
Qed.

Lemma TaskMetadata_init_Ok args kwargs md :
  TaskMetadata_init args kwargs = Ok md →
  ∃ bound n,
    bind_arguments TaskMetadata_params args kwargs = Ok bound ∧
    bound !! "name" = Some n ∧
    md = {| name := n;
            inputs := from_factory factory_list (bound !! "inputs");
            outputs := from_factory factory_list (bound !! "outputs");
            run_facets := from_factory factory_dict (bound !! "run_facets");
            job_facets := from_factory factory_dict (bound !! "job_facets") |}.
Proof.
  unfold TaskMetadata_init.
  destruct (bind_arguments _ args kwargs) as [bound|]; [|done].
  destruct (bound !! "name") as [n|] eqn:Hn; [|done].
  intros [= <-]. eauto.
Qed.

(** Binding succeeds on well-formed calls, and keeps what is bound. *)
Lemma bind_positional_succeeds params args bound :
  (length args ≤ length params)%nat →
  ∃ bound', bind_positional params args bound = Ok bound'.
Proof.
  revert params bound.
  induction args as [|a args IH]; intros params bound Hlen; simpl in *.
  - eauto.
  - destruct params as [|p params]; simpl in Hlen; [lia|].
    apply IH. lia.
Qed.

Lemma bind_positional_mono params args bound bound' f :
  bind_positional params args bound = Ok bound' →
  is_Some (bound !! f) →
  is_Some (bound' !! f).
Proof.
  revert params bound.
  induction args as [|a args IH]; intros params bound H Hf; simpl in *.
  - congruence.
  - destruct params as [|p params]; [done|].
    apply (IH _ _ H). rewrite lookup_insert_is_Some.
    destruct (decide (p = f)); [by left | by right].
Qed.

Lemma bind_positional_lookup_passed params args bound bound' f i :
  bind_positional params args bound = Ok bound' →
  params !! i = Some f →
  i < length args →
  is_Some (bound' !! f).
Proof.
  revert params bound i.
  induction args as [|a args IH]; intros params bound i H Hf Hi; simpl in *.
  - lia.
  - destruct params as [|p params]; [done|].
    destruct i as [|i]; simpl in Hf.
    + injection Hf as ->.
      apply (bind_positional_mono _ _ _ _ _ H).
      rewrite lookup_insert_eq. eauto.
    + eapply IH; [done..|lia].
Qed.

Lemma bind_keywords_mono params kwargs bound bound' f :
  bind_keywords params kwargs bound = Ok bound' →
  is_Some (bound !! f) →
  is_Some (bound' !! f).
Proof.
  revert bound.
  induction kwargs as [|[k v] kwargs IH]; intros bound H Hf; simpl in *.
  - congruence.
  - case_bool_decide; [|done].
    destruct (bound !! k) eqn:Hk; [done|].
    apply (IH _ H). rewrite lookup_insert_is_Some.
    destruct (decide (k = f)); [by left | by right].
Qed.

Lemma bind_keywords_lookup_passed params kwargs bound bound' f :
  bind_keywords params kwargs bound = Ok bound' →
  f ∈ kwargs.*1 →
  is_Some (bound' !! f).
Proof.
  revert bound.
  induction kwargs as [|[k v] kwargs IH]; intros bound H Hf; simpl in *.
  - by apply elem_of_nil in Hf.
  - case_bool_decide; [|done].
    destruct (bound !! k) eqn:Hk; [done|].
    apply elem_of_cons in Hf as [->|Hf]; [|by eapply IH].
    apply (bind_keywords_mono _ _ _ _ _ H).
    rewrite lookup_insert_eq. eauto.
Qed.

Lemma bind_keywords_succeeds params kwargs bound :
  NoDup kwargs.*1 →
  (∀ k, k ∈ kwargs.*1 → k ∈ params ∧ bound !! k = None) →
  ∃ bound', bind_keywords params kwargs bound = Ok bound'.
Proof.
  revert bound.
  induction kwargs as [|[k v] kwargs IH]; intros bound Hnd Hk; simpl in *.
  - eauto.
  - apply NoDup_cons in Hnd as [Hnotin Hnd].
    destruct (Hk k) as [Hin Hfree]; [apply elem_of_cons; by left|].
    rewrite bool_decide_eq_true_2, Hfree by done.
    apply IH; [done|].
    intros k' Hk'. destruct (Hk k') as [? ?]; [apply elem_of_cons; by right|].
    split; [done|]. rewrite lookup_insert_ne; [done|]. by intros ->.
Qed.

(** Every well-formed call that passes [name] constructs a record. *)
Lemma TaskMetadata_init_succeeds args kwargs :
  well_formed_call args kwargs →
  omitted "name" args kwargs = false →
  ∃ md, TaskMetadata_init args kwargs = Ok md.
Proof.
  intros (Hlen & Hnd & Hkw) Hname.
  destruct (bind_positional_succeeds TaskMetadata_params args ∅ Hlen)
    as [b0 Hb0].
  destruct (bind_keywords_succeeds TaskMetadata_params kwargs b0 Hnd)
    as [bound Hbound].
  { intros k Hk. destruct (Hkw k Hk) as [Hin Hpos]. split; [done|].
    rewrite (bind_positional_lookup_beyond _ _ _ _ k Hb0);
      [apply lookup_empty | by apply passed_positionally_false]. }
  assert (is_Some (bound !! "name")) as [n Hn].
  { unfold omitted in Hname. apply andb_false_iff in Hname as [Hp|Hk].
    - apply negb_false_iff, passed_positionally_true in Hp as (i & Hi & Hlt).
      apply (bind_keywords_mono _ _ _ _ _ Hbound).
      by eapply bind_positional_lookup_passed.
    - apply negb_false_iff, bool_decide_eq_true in Hk.
      by eapply bind_keywords_lookup_passed. }
  unfold TaskMetadata_init, bind_arguments. rewrite Hb0, Hbound, Hn. eauto.
Qed.

(** C2: whenever a construction of a [TaskMetadata] leaves out one of
    [inputs], [outputs], [run_facets], [job_facets], that attribute is
    the empty list, respectively the empty dict, whatever was passed for
    the others. *)
Theorem TaskMetadata_omitted_defaults args kwargs md :
  TaskMetadata_init args kwargs = Ok md →
  (omitted "inputs" args kwargs = true → inputs md = VList []) ∧
  (omitted "outputs" args kwargs = true → outputs md = VList []) ∧
  (omitted "run_facets" args kwargs = true → run_facets md = VDict ∅) ∧
  (omitted "job_facets" args kwargs = true → job_facets md = VDict ∅).
Proof.
  intros (bound & n & Hb & _ & ->)%TaskMetadata_init_Ok. simpl.
  repeat split; intros Ho;
    by rewrite (bind_arguments_omitted _ _ _ _ Hb Ho).
Qed.

Lemma TaskMetadata_omitted_defaults_witness :
  let args := [VStr "load_events"] in
  let kwargs := [("outputs", VList [mkDataset "bigquery" "project.ds.out"])] in
  ∃ md, TaskMetadata_init args kwargs = Ok md ∧
        omitted "inputs" args kwargs = true ∧ inputs md = VList [] ∧
        omitted "outputs" args kwargs = false ∧
        omitted "run_facets" args kwargs = true ∧ run_facets md = VDict ∅ ∧
        omitted "job_facets" args kwargs = true ∧ job_facets md = VDict ∅.
Proof.
  intros args kwargs.
  destruct (TaskMetadata_init args kwargs) as [md|] eqn:Hmd;
    [|by vm_compute in Hmd].
  exists md.
  destruct (TaskMetadata_omitted_defaults args kwargs md Hmd)
    as (Hi & _ & Hr & Hj).
  repeat split; try reflexivity; [apply Hi | apply Hr | apply Hj];
    reflexivity.
Defined.

(** C6, as stated, fails: the generated constructor stores what it is
    given, so passing [None] for [inputs] yields a record whose [inputs]
    is [None]. *)
Lemma TaskMetadata_None_field_constructible :
  ¬ (∀ args kwargs md,
       TaskMetadata_init args kwargs = Ok md →
       name md ≠ VNone ∧ inputs md ≠ VNone ∧ outputs md ≠ VNone ∧
       run_facets md ≠ VNone ∧ job_facets md ≠ VNone).
Proof.
  intros H.
  destruct (H [VStr "load_events"; VNone] []
              {| name := VStr "load_events"; inputs := VNone;
                 outputs := VList []; run_facets := VDict ∅;
                 job_facets := VDict ∅ |})
    as (_ & Hinputs & _); [by vm_compute|].
  by apply Hinputs.
Qed.

(** An attribute with a factory holds the factory's value or the value
    bound to it. *)
Lemma from_factory_cases factory arg :
  from_factory factory arg = factory ∨
  arg = Some (from_factory factory arg).
Proof.
  unfold from_factory. destruct arg as [v|]; simpl; [|by left].
  destruct v; (by left) || (by right).
Qed.

(** C6, amended: a [TaskMetadata] constructed from arguments none of
    which is [None] has no attribute equal to [None]; the attributes left
    out are the empty list or dict. *)
Theorem TaskMetadata_fields_not_None args kwargs md :
  TaskMetadata_init args kwargs = Ok md →
  VNone ∉ args →
  VNone ∉ kwargs.*2 →
  name md ≠ VNone ∧ inputs md ≠ VNone ∧ outputs md ≠ VNone ∧
  run_facets md ≠ VNone ∧ job_facets md ≠ VNone.
Proof.
  intros (bound & n & Hb & Hn & ->)%TaskMetadata_init_Ok Hargs Hkwargs.
  assert (Hpassed : ∀ f v, bound !! f = Some v → v ≠ VNone).
  { intros f v Hv ->.
    by destruct (bind_arguments_values _ _ _ _ _ _ Hb Hv). }
  simpl. split; [by eapply Hpassed|].
  repeat split;
    match goal with
    | |- from_factory ?d (bound !! ?f) ≠ _ =>
        destruct (from_factory_cases d (bound !! f)) as [-> | Hf];
          [done | by eapply Hpassed]
    end.
Qed.

Lemma TaskMetadata_fields_not_None_witness :
  let args := [VStr "load_events";
               VList [mkDataset "bigquery" "project.ds.in"]] in
  let kwargs := [("job_facets", VDict {["sql" := Facet "SELECT 1"]})] in
  ∃ md, TaskMetadata_init args kwargs = Ok md ∧
        name md ≠ VNone ∧ inputs md ≠ VNone ∧ outputs md ≠ VNone ∧
        run_facets md ≠ VNone ∧ job_facets md ≠ VNone.
Proof.
  intros args kwargs.
  destruct (TaskMetadata_init args kwargs) as [md|] eqn:Hmd;
    [|by vm_compute in Hmd].
  exists md. split; [reflexivity|].
  apply (TaskMetadata_fields_not_None args kwargs md Hmd).
  - unfold args. intros Hin.
    repeat (apply elem_of_cons in Hin as [?|Hin]; [done|]).
    by apply elem_of_nil in Hin.
  - unfold kwargs. simpl. intros Hin.
    repeat (apply elem_of_cons in Hin as [?|Hin]; [done|]).
    by apply elem_of_nil in Hin.
Defined.

(** C8: [name] must be passed.  A construction that passes no [name]
    raises [TypeError], whatever else it passes, while a construction that
    passes [name] alone, by position or by keyword, succeeds. *)
Theorem TaskMetadata_name_required :
  (∀ args kwargs,
     omitted "name" args kwargs = true →
     TaskMetadata_init args kwargs = Raise TypeError) ∧
  (∀ n,
     TaskMetadata_init [n] [] =
       Ok {| name := n; inputs := VList []; outputs := VList [];
             run_facets := VDict ∅; job_facets := VDict ∅ |}) ∧
  (∀ n,
     TaskMetadata_init [] [("name", n)] =
       Ok {| name := n; inputs := VList []; outputs := VList [];
             run_facets := VDict ∅; job_facets := VDict ∅ |}).
Proof.
  split; [|split; intros n; reflexivity].
  intros args kwargs Ho. unfold TaskMetadata_init.
  destruct (bind_arguments _ args kwargs) as [bound|e] eqn:Hb.
  - by rewrite (bind_arguments_omitted _ _ _ _ Hb Ho).
  - by rewrite (bind_arguments_error _ _ _ _ Hb).
Qed.

Lemma TaskMetadata_name_required_witness :
  let kwargs := [("inputs", VList []); ("run_facets", VDict ∅)] in
  omitted "name" [] kwargs = true ∧
  TaskMetadata_init [] kwargs = Raise TypeError.
Proof.
  intros kwargs. split; [reflexivity|].
  apply (proj1 TaskMetadata_name_required). reflexivity.
Defined.

(** ** validate *)

(** What [validate] computes, with assertions enabled, on an extractor
    bound to a task: the class name of the task is looked up in the
    declared list. *)
Lemma BaseExtractor_validate_bound cls self e o task h :
  h !! self = Some e →
  obj_attrs e !! "operator" = Some (VRef o) →
  h !! o = Some task →
  BaseExtractor_validate true cls self h =
    match get_operator_classnames cls h with
    | (Ok classnames, h') =>
        (if py_in (obj_class task) classnames
         then Ok tt else Raise AssertionError, h')
    | (Raise x, h') => (Raise x, h')
    end.
Proof.
  intros Hself Hop Htask.
  unfold BaseExtractor_validate, py_assert, bind, getattr, class_name_of.
  rewrite Hself, Hop, Htask.
  destruct (get_operator_classnames cls h) as [[classnames|x] h']; [|done].
  unfold ret. by destruct (py_in _ _).
Qed.

(** With assertions removed, [validate] does nothing. *)
Lemma BaseExtractor_validate_optimized cls self h :
  BaseExtractor_validate false cls self h = (Ok tt, h).
Proof. reflexivity. Qed.

(** [validate] writes to the heap only through [get_operator_classnames]. *)
Lemma BaseExtractor_validate_heap debug cls self h :
  (BaseExtractor_validate debug cls self h).2 = h ∨
  (BaseExtractor_validate debug cls self h).2
    = (get_operator_classnames cls h).2.
Proof.
  destruct debug; [|by left].
  unfold BaseExtractor_validate, py_assert, bind, getattr.
  destruct (h !! self) as [e|]; [|by left].
  destruct (obj_attrs e !! "operator") as [v|]; [|by left].
  destruct (class_name_of v h) as [[n|x] h1] eqn:Hn.
  - assert (h1 = h) as ->.
    { unfold class_name_of in Hn.
      destruct v; try (by inversion Hn).
      destruct (h !! l); by inversion Hn. }
    right.
    destruct (get_operator_classnames cls h) as [[classnames|x] h']; [|done].
    unfold ret. by destruct (py_in _ _).
  - left. unfold class_name_of in Hn.
    destruct v; try (by inversion Hn).
    destruct (h !! l); by inversion Hn.
Qed.

(** C1, as stated, fails: the check is an [assert], which the
    interpreter removes under [-O].  There [validate] returns normally
    for a [BigQueryExtractor] bound to a [PostgresOperator]. *)
Lemma validate_succeeds_on_mismatch_when_optimized :
  ¬ (∀ debug cls self e o task classnames (h h' : heap),
       h !! self = Some e →
       obj_attrs e !! "operator" = Some (VRef o) →
       h !! o = Some task →
       get_operator_classnames cls h = (Ok classnames, h') →
       ((BaseExtractor_validate debug cls self h).1 = Ok tt ↔
          obj_class task ∈ classnames)).
Proof.
  intros H.
  assert (Hin : obj_class postgres_operator
                  ∈ ["BigQueryOperator"; "BigQueryExecuteQueryOperator"]).
  { apply (H false BigQueryExtractor 3%positive
             {| obj_class := "BigQueryExtractor";
                obj_attrs := {["operator" := VRef 2%positive]} |}
             2%positive postgres_operator
             ["BigQueryOperator"; "BigQueryExecuteQueryOperator"]
             (bound_heap "BigQueryExtractor" 2%positive)
             (bound_heap "BigQueryExtractor" 2%positive));
      reflexivity. }
  simpl in Hin.
  repeat (apply elem_of_cons in Hin as [?|Hin]; [done|]).
  by apply elem_of_nil in Hin.
Qed.

(** C1, amended: with assertions enabled (the interpreter's default
    mode), for an extractor bound to a task instance, whose
    [get_operator_classnames] returns the list [classnames], [validate]
    returns normally exactly when the task's class name is in
    [classnames], and raises otherwise. *)
Theorem validate_succeeds_iff_supported cls self e o task classnames h h' :
  h !! self = Some e →
  obj_attrs e !! "operator" = Some (VRef o) →
  h !! o = Some task →
  get_operator_classnames cls h = (Ok classnames, h') →
  ((BaseExtractor_validate true cls self h).1 = Ok tt ↔
     obj_class task ∈ classnames) ∧
  (obj_class task ∉ classnames →
     ∃ x, (BaseExtractor_validate true cls self h).1 = Raise x).
Proof.
  intros Hself Hop Htask Hnames.
  rewrite (BaseExtractor_validate_bound _ _ _ _ _ _ Hself Hop Htask), Hnames.
  unfold py_in. simpl. case_bool_decide; split; try done.
  intros _. by exists AssertionError.
Qed.

Lemma validate_succeeds_iff_supported_witness :
  (BaseExtractor_validate true BigQueryExtractor 3%positive
     (bound_heap "BigQueryExtractor" 1%positive)).1 = Ok tt ∧
  ∃ x, (BaseExtractor_validate true BigQueryExtractor 3%positive
          (bound_heap "BigQueryExtractor" 2%positive)).1 = Raise x.
Proof.
  split.
  - apply (validate_succeeds_iff_supported BigQueryExtractor 3%positive
             {| obj_class := "BigQueryExtractor";
                obj_attrs := {["operator" := VRef 1%positive]} |}
             1%positive bigquery_operator
             ["BigQueryOperator"; "BigQueryExecuteQueryOperator"]
             (bound_heap "BigQueryExtractor" 1%positive)
             (bound_heap "BigQueryExtractor" 1%positive));
      try reflexivity.
    simpl. apply elem_of_cons. by left.
  - apply (validate_succeeds_iff_supported BigQueryExtractor 3%positive
             {| obj_class := "BigQueryExtractor";
                obj_attrs := {["operator" := VRef 2%positive]} |}
             2%positive postgres_operator
             ["BigQueryOperator"; "BigQueryExecuteQueryOperator"]
             (bound_heap "BigQueryExtractor" 2%positive)
             (bound_heap "BigQueryExtractor" 2%positive));
      try reflexivity.
    simpl. intros Hin.
    repeat (apply elem_of_cons in Hin as [?|Hin]; [done|]).
    by apply elem_of_nil in Hin.
Defined.

(** C5, as stated, fails twice over.  Under [-O] a mismatch is not
    reported at all: [validate] returns.  And the exception raised with
    assertions enabled is the built-in [AssertionError], which [validate]
    also raises, with no mismatch, when [get_operator_classnames] fails an
    assertion of its own: the two outcomes are the same exception. *)
Lemma validate_mismatch_swallowed_or_generic :
  (obj_class postgres_operator
     ∉ ["BigQueryOperator"; "BigQueryExecuteQueryOperator"]) ∧
  (BaseExtractor_validate false BigQueryExtractor 3%positive
     (bound_heap "BigQueryExtractor" 2%positive)
   = (Ok tt, bound_heap "BigQueryExtractor" 2%positive)) ∧
  ((BaseExtractor_validate true AssertingExtractor 3%positive
      (bound_heap "AssertingExtractor" 1%positive)).1
   = (BaseExtractor_validate true BigQueryExtractor 3%positive
        (bound_heap "BigQueryExtractor" 2%positive)).1).
Proof.
  split; [|split; reflexivity].
  simpl. intros Hin.
  repeat (apply elem_of_cons in Hin as [?|Hin]; [done|]).
  by apply elem_of_nil in Hin.
Qed.

(** C5, amended: with assertions enabled, when [get_operator_classnames]
    returns a list and the bound task's class name is not in it,
    [validate] does not return: it raises the built-in [AssertionError]
    to the caller; and, given that [get_operator_classnames] returned,
    [validate] raises [AssertionError] in no other case. *)
Theorem validate_mismatch_raises_AssertionError
    cls self e o task classnames h h' :
  h !! self = Some e →
  obj_attrs e !! "operator" = Some (VRef o) →
  h !! o = Some task →
  get_operator_classnames cls h = (Ok classnames, h') →
  (obj_class task ∉ classnames →
     BaseExtractor_validate true cls self h = (Raise AssertionError, h')) ∧
  ((BaseExtractor_validate true cls self h).1 = Raise AssertionError →
     obj_class task ∉ classnames).
Proof.
  intros Hself Hop Htask Hnames.
  rewrite (BaseExtractor_validate_bound _ _ _ _ _ _ Hself Hop Htask), Hnames.
  unfold py_in. simpl. case_bool_decide; split; done.
Qed.

Lemma validate_mismatch_raises_AssertionError_witness :
  BaseExtractor_validate true BigQueryExtractor 3%positive
    (bound_heap "BigQueryExtractor" 2%positive)
  = (Raise AssertionError, bound_heap "BigQueryExtractor" 2%positive).
Proof.
  apply (validate_mismatch_raises_AssertionError BigQueryExtractor 3%positive
           {| obj_class := "BigQueryExtractor";
              obj_attrs := {["operator" := VRef 2%positive]} |}
           2%positive postgres_operator
           ["BigQueryOperator"; "BigQueryExecuteQueryOperator"]
           (bound_heap "BigQueryExtractor" 2%positive)
           (bound_heap "BigQueryExtractor" 2%positive));
    try reflexivity.
  simpl. intros Hin.
  repeat (apply elem_of_cons in Hin as [?|Hin]; [done|]).
  by apply elem_of_nil in Hin.
Defined.

(** ** get_operator_classnames *)

(** C3: on a class that does not define [get_operator_classnames], the
    call raises [NotImplementedError] in every heap, bound instance or
    not, leaves the heap as it was, and so never returns the empty list. *)
Theorem get_operator_classnames_not_implemented cls h :
  cls_get_operator_classnames cls = None →
  get_operator_classnames cls h = (Raise NotImplementedError, h) ∧
  (get_operator_classnames cls h).1 ≠ Ok [].
Proof.
  intros Hnone. unfold get_operator_classnames. by rewrite Hnone.
Qed.

Lemma get_operator_classnames_not_implemented_witness :
  get_operator_classnames UndeclaredExtractor ∅
    = (Raise NotImplementedError, ∅) ∧
  get_operator_classnames UndeclaredExtractor
      (bound_heap "UndeclaredExtractor" 1%positive)
    = (Raise NotImplementedError,
       bound_heap "UndeclaredExtractor" 1%positive).
Proof.
  split.
  - apply (get_operator_classnames_not_implemented UndeclaredExtractor ∅).
    reflexivity.
  - apply (get_operator_classnames_not_implemented UndeclaredExtractor
             (bound_heap "UndeclaredExtractor" 1%positive)).
    reflexivity.
Defined.

(** ** extract_on_complete *)

(** C4: on a class that does not define [extract_on_complete], the call
    [self.extract_on_complete(task_instance)] gives the result, and the
    heap, that [self.extract()] gives. *)
Theorem extract_on_complete_delegates cls self task_instance h :
  cls_extract_on_complete cls = None →
  extract_on_complete cls self task_instance h = extract cls self h.
Proof.
  intros Hnone. unfold extract_on_complete. by rewrite Hnone.
Qed.

Lemma extract_on_complete_delegates_witness :
  extract_on_complete BigQueryExtractor 3%positive (VRef 1%positive)
    (bound_heap "BigQueryExtractor" 1%positive)
  = extract BigQueryExtractor 3%positive
      (bound_heap "BigQueryExtractor" 1%positive).
Proof.
  apply (extract_on_complete_delegates BigQueryExtractor). reflexivity.
Defined.

(** C9: on a class that does not define [extract_on_complete], the
    argument [task_instance] has no influence on the outcome. *)
Theorem extract_on_complete_ignores_task_instance cls self t1 t2 h :
  cls_extract_on_complete cls = None →
  extract_on_complete cls self t1 h = extract_on_complete cls self t2 h.
Proof.
  intros Hnone. unfold extract_on_complete. by rewrite Hnone.
Qed.

Lemma extract_on_complete_ignores_task_instance_witness :
  extract_on_complete BigQueryExtractor 3%positive (VRef 1%positive)
    (bound_heap "BigQueryExtractor" 1%positive)
  = extract_on_complete BigQueryExtractor 3%positive VNone
      (bound_heap "BigQueryExtractor" 1%positive).
Proof.
  apply (extract_on_complete_ignores_task_instance BigQueryExtractor).
  reflexivity.
Defined.

(** ** Construction and patch *)

Section ConstructionProperties.

Variable LoggingMixin_init : gmap string pyval → gmap string pyval.

Lemma fresh_location (h : heap) : h !! fresh (dom h) = None.
Proof. apply not_elem_of_dom, is_fresh. Qed.

(** Instantiating a concrete class allocates the instance, assigns
    [self.operator] and then runs [self.patch()]. *)
Lemma instantiate_eval cls operator h f :
  cls_extract cls = Some f →
  instantiate LoggingMixin_init cls operator h =
    match patch cls (fresh (dom h))
            (with_instance LoggingMixin_init cls operator h) with
    | (Ok _, h2) => (Ok (fresh (dom h)), h2)
    | (Raise x, h2) => (Raise x, h2)
    end.
Proof.
  intros Hf. unfold instantiate. rewrite Hf.
  unfold bind, alloc, BaseExtractor_init, bind, super_init, setattr.
  rewrite lookup_insert_eq. simpl.
  rewrite lookup_insert_eq. simpl.
  rewrite !insert_insert_eq. unfold with_instance, bound_instance, ret.
  by destruct (patch cls _ _) as [[[]|x] h2].
Qed.

Lemma instantiate_abstract cls operator h :
  cls_extract cls = None →
  instantiate LoggingMixin_init cls operator h = (Raise TypeError, h).
Proof. intros Hf. unfold instantiate. by rewrite Hf. Qed.

Lemma patch_base cls self h :
  cls_patch cls = None → patch cls self h = (Ok tt, h).
Proof. intros Hp. unfold patch. by rewrite Hp. Qed.

(** X10: with assertions enabled, an extractor constructed for the task
    at [o], of a class that does not define [patch], validates exactly
    when the task's class name is declared. *)
Lemma validate_constructed cls o task classnames h h' f :
  cls_extract cls = Some f →
  cls_patch cls = None →
  h !! o = Some task →
  get_operator_classnames cls
    (with_instance LoggingMixin_init cls (VRef o) h) = (Ok classnames, h') →
  (let* self := instantiate LoggingMixin_init cls (VRef o) in
   BaseExtractor_validate true cls self) h
  = (if py_in (obj_class task) classnames
     then Ok tt else Raise AssertionError, h').
Proof.
  intros Hf Hp Ho Hnames. unfold bind at 1.
  rewrite (instantiate_eval _ _ _ _ Hf), (patch_base _ _ _ Hp).
  rewrite (BaseExtractor_validate_bound cls _
             (bound_instance LoggingMixin_init cls (VRef o)) o task).
  - by rewrite Hnames.
  - apply lookup_insert_eq.
  - apply lookup_insert_eq.
  - unfold with_instance. rewrite lookup_insert_ne; [done|].
    intros Heq. by rewrite <- Heq, fresh_location in Ho.
Qed.

(** C7, amended: constructing an extractor of a concrete class allocates
    a new instance, stores the operator on it and runs [patch] once, as
    the last step of the constructor; the outcome of the construction is
    the outcome of that one call.  When the class does not define
    [patch], the construction only adds the new instance to the heap.
    [validate], called afterwards, writes to the heap only through
    [get_operator_classnames]. *)
Theorem instantiate_runs_patch_once cls operator h f :
  cls_extract cls = Some f →
  h !! fresh (dom h) = None ∧
  instantiate LoggingMixin_init cls operator h =
    match patch cls (fresh (dom h))
            (with_instance LoggingMixin_init cls operator h) with
    | (Ok _, h2) => (Ok (fresh (dom h)), h2)
    | (Raise x, h2) => (Raise x, h2)
    end ∧
  (cls_patch cls = None →
     instantiate LoggingMixin_init cls operator h =
       (Ok (fresh (dom h)),
        with_instance LoggingMixin_init cls operator h)) ∧
  (∀ debug self h0,
     (BaseExtractor_validate debug cls self h0).2 = h0 ∨
     (BaseExtractor_validate debug cls self h0).2 =
       (get_operator_classnames cls h0).2).
Proof.
  intros Hf. split; [apply fresh_location|].
  split; [by apply instantiate_eval with f|].
  split; [|intros; apply BaseExtractor_validate_heap].
  intros Hp. rewrite (instantiate_eval _ _ _ _ Hf).
  by rewrite (patch_base _ _ _ Hp).
Qed.

(** C10: for a class that does not define [patch], [patch] returns
    without touching the heap; constructing an instance leaves every
    object that existed before, the operator among them, as it was; and
    when the construction succeeds, the heap has grown by the new
    instance alone, whose [operator] attribute holds the operator. *)
Theorem base_patch_is_noop cls operator h :
  cls_patch cls = None →
  (∀ self h0, patch cls self h0 = (Ok tt, h0)) ∧
  (∀ l, is_Some (h !! l) →
     (instantiate LoggingMixin_init cls operator h).2 !! l = h !! l) ∧
  (∀ self,
     (instantiate LoggingMixin_init cls operator h).1 = Ok self →
     h !! self = None ∧
     (instantiate LoggingMixin_init cls operator h).2 =
       <[self := bound_instance LoggingMixin_init cls operator]> h).
Proof.
  intros Hp. split; [intros; by apply patch_base|].
  destruct (cls_extract cls) as [f|] eqn:Hf.
  - rewrite (instantiate_eval _ _ _ _ Hf), (patch_base _ _ _ Hp). simpl.
    split.
    + intros l [ob Hl]. apply lookup_insert_ne. intros <-.
      by rewrite fresh_location in Hl.
    + intros self [= <-]. split; [apply fresh_location | done].
  - rewrite (instantiate_abstract _ _ _ Hf). simpl. by split.
Qed.

End ConstructionProperties.

Lemma instantiate_runs_patch_once_witness :
  instantiate sample_LoggingMixin_init CountingExtractor (VRef 1%positive)
    sample_heap
  = match patch CountingExtractor 3%positive
            (<[3%positive :=
                 bound_instance sample_LoggingMixin_init CountingExtractor
                   (VRef 1%positive)]> sample_heap) with
    | (Ok _, h2) => (Ok 3%positive, h2)
    | (Raise x, h2) => (Raise x, h2)
    end.
Proof.
  apply (instantiate_runs_patch_once sample_LoggingMixin_init
           CountingExtractor (VRef 1%positive) sample_heap
           (λ _, ret None)).
  reflexivity.
Defined.

Lemma base_patch_is_noop_witness :
  (instantiate sample_LoggingMixin_init BigQueryExtractor (VRef 1%positive)
     sample_heap).2 !! 1%positive
  = sample_heap !! 1%positive.
Proof.
  apply (proj1 (proj2 (base_patch_is_noop sample_LoggingMixin_init
                         BigQueryExtractor (VRef 1%positive) sample_heap
                         eq_refl))).
  exists bigquery_operator. reflexivity.
Defined.

(** C7, as stated, fails: construction is not free of effects on the
    bound task.  Constructing a [CountingExtractor] for the operator at
    location 1 runs the class's [patch], which writes to that operator. *)
Lemma instantiate_not_pure :
  ¬ (∀ LoggingMixin_init cls operator (h : heap) l,
       is_Some (h !! l) →
       (instantiate LoggingMixin_init cls operator h).2 !! l = h !! l).
Proof.
  intros H.
  specialize (H sample_LoggingMixin_init CountingExtractor
                (VRef 1%positive) sample_heap 1%positive).
  assert (Hattr :
    ((instantiate sample_LoggingMixin_init CountingExtractor
        (VRef 1%positive) sample_heap).2 !! 1%positive)
      ≫= (λ ob, obj_attrs ob !! "patched")
    = (sample_heap !! 1%positive) ≫= (λ ob, obj_attrs ob !! "patched")).
  { rewrite H; [done|]. by exists bigquery_operator. }
  vm_compute in Hattr. done.
Qed.

(** The counter kept by [CountingExtractor.patch] reads 1 after the
    instance was constructed, validated and asked twice for metadata. *)
Example patch_ran_once :
  (let* self := instantiate sample_LoggingMixin_init CountingExtractor
                  (VRef 1%positive) in
   let* _ := BaseExtractor_validate true CountingExtractor self in
   let* _ := extract CountingExtractor self in
   let* _ := extract_on_complete CountingExtractor self VNone in
   getattr 1%positive "patched") sample_heap
  = (Ok (VInt 1),
     <[1%positive :=
         {| obj_class := "BigQueryOperator";
            obj_attrs :=
              <["patched" := VInt 1]> (obj_attrs bigquery_operator) |}]>
       (<[3%positive :=
            bound_instance sample_LoggingMixin_init CountingExtractor
              (VRef 1%positive)]> sample_heap)).
Proof. by vm_compute. Qed.

(** * Further properties *)

(** ** Which calls of the TaskMetadata constructor succeed *)

Lemma TaskMetadata_params_NoDup : NoDup TaskMetadata_params.
Proof. apply (bool_decide_unpack _). by vm_compute. Qed.

Lemma bind_positional_length params args bound bound' :
  bind_positional params args bound = Ok bound' →
  (length args ≤ length params)%nat.
Proof.
  revert params bound.
  induction args as [|a args IH]; intros params bound H; simpl in *.
  - lia.
  - destruct params as [|p params]; [done|]. simpl.
    apply IH in H. lia.
Qed.

Lemma bind_keywords_Ok_inv params kwargs bound bound' :
  bind_keywords params kwargs bound = Ok bound' →
  NoDup kwargs.*1 ∧
  ∀ k, k ∈ kwargs.*1 → k ∈ params ∧ bound !! k = None.
Proof.
  revert bound.
  induction kwargs as [|[k v] kwargs IH]; intros bound H; simpl in *.
  - split; [constructor|]. intros k Hk. by apply elem_of_nil in Hk.
  - case_bool_decide as Hin; [|done].
    destruct (bound !! k) eqn:Hk; [done|].
    destruct (IH _ H) as [Hnd Hrest].
    assert (k ∉ kwargs.*1) as Hfresh.
    { intros Hk'. destruct (Hrest k Hk') as [_ Hnone].
      by rewrite lookup_insert_eq in Hnone. }
    split; [by constructor|].
    intros k' [->|Hk']%elem_of_cons; [done|].
    destruct (Hrest k' Hk') as [? Hnone]. split; [done|].
    by apply lookup_insert_None in Hnone as [? _].
Qed.

(** X1: the constructor returns a record exactly on the well-formed
    calls that pass [name]. *)
Theorem TaskMetadata_init_succeeds_iff args kwargs :
  (∃ md, TaskMetadata_init args kwargs = Ok md) ↔
  well_formed_call args kwargs ∧ omitted "name" args kwargs = false.
Proof.
  split; [|intros [? ?]; by apply TaskMetadata_init_succeeds].
  intros [md (bound & n & Hb & Hn & _)%TaskMetadata_init_Ok].
  split.
  - unfold bind_arguments in Hb.
    destruct (bind_positional _ args ∅) as [b0|] eqn:Hp; [|done].
    destruct (bind_keywords_Ok_inv _ _ _ _ Hb) as [Hnd Hkw].
    split; [by eapply bind_positional_length|]. split; [done|].
    intros k Hk. destruct (Hkw k Hk) as [Hin Hnone]. split; [done|].
    destruct (passed_positionally k args) eqn:Hpos; [|done].
    apply passed_positionally_true in Hpos as (i & Hi & Hlt).
    destruct (bind_positional_lookup_passed _ _ _ _ _ _ Hp Hi Hlt) as [v Hv].
    congruence.
  - destruct (omitted "name" args kwargs) eqn:Ho; [|done].
    by rewrite (bind_arguments_omitted _ _ _ _ Hb Ho) in Hn.
Qed.

(** X2: a construction that fails raises [TypeError], whatever the
    reason: a missing [name], too many positional arguments, an unknown
    keyword or an attribute passed twice. *)
Theorem TaskMetadata_init_raises_TypeError args kwargs e :
  TaskMetadata_init args kwargs = Raise e → e = TypeError.
Proof.
  unfold TaskMetadata_init.
  destruct (bind_arguments _ args kwargs) as [bound|e'] eqn:Hb.
  - destruct (bound !! "name"); [done|]. by intros [= <-].
  - intros [= <-]. by eapply bind_arguments_error.
Qed.

Lemma TaskMetadata_init_raises_TypeError_witness :
  TaskMetadata_init (replicate 6 VNone) [] = Raise TypeError ∧
  TaskMetadata_init [VStr "t"] [("facets", VDict ∅)] = Raise TypeError ∧
  TaskMetadata_init [VStr "t"] [("name", VStr "u")] = Raise TypeError.
Proof.
  split; [|split].
  - destruct (TaskMetadata_init (replicate 6 VNone) []) as [md|e] eqn:H;
      [by vm_compute in H|].
    by rewrite (TaskMetadata_init_raises_TypeError _ _ e H).
  - destruct (TaskMetadata_init [VStr "t"] [("facets", VDict ∅)])
      as [md|e] eqn:H; [by vm_compute in H|].
    by rewrite (TaskMetadata_init_raises_TypeError _ _ e H).
  - destruct (TaskMetadata_init [VStr "t"] [("name", VStr "u")])
      as [md|e] eqn:H; [by vm_compute in H|].
    by rewrite (TaskMetadata_init_raises_TypeError _ _ e H).
Defined.

Lemma TaskMetadata_init_succeeds_iff_witness :
  ∃ md, TaskMetadata_init [VStr "load_events"] [("outputs", VList [])]
        = Ok md.
Proof.
  apply (proj2 (TaskMetadata_init_succeeds_iff
                  [VStr "load_events"] [("outputs", VList [])])).
  split; [|reflexivity].
  split; [simpl; lia|]. split.
  - simpl. apply NoDup_singleton.
  - simpl. intros k Hk. apply list_elem_of_singleton in Hk as ->.
    split; [|reflexivity].
    apply elem_of_cons; right. apply elem_of_cons; right.
    apply elem_of_cons; by left.
Defined.

(** ** What the constructed record holds *)

Lemma bind_keywords_preserves params kwargs bound bound' f v :
  bind_keywords params kwargs bound = Ok bound' →
  bound !! f = Some v →
  bound' !! f = Some v.
Proof.
  revert bound.
  induction kwargs as [|[k w] kwargs IH]; intros bound H Hf; simpl in *.
  - congruence.
  - case_bool_decide; [|done].
    destruct (bound !! k) eqn:Hk; [done|].
    apply (IH _ H). rewrite lookup_insert_ne; [done|]. congruence.
Qed.

Lemma bind_keywords_lookup_pair params kwargs bound bound' f v :
  bind_keywords params kwargs bound = Ok bound' →
  (f, v) ∈ kwargs →
  bound' !! f = Some v.
Proof.
  revert bound.
  induction kwargs as [|[k w] kwargs IH]; intros bound H Hf; simpl in *.
  - by apply elem_of_nil in Hf.
  - case_bool_decide; [|done].
    destruct (bound !! k) eqn:Hk; [done|].
    apply elem_of_cons in Hf as [[= -> ->]|Hf]; [|by eapply IH].
    apply (bind_keywords_preserves _ _ _ _ _ _ H), lookup_insert_eq.
Qed.

Lemma bind_positional_lookup_at params args bound bound' f v i :
  NoDup params →
  bind_positional params args bound = Ok bound' →
  params !! i = Some f →
  args !! i = Some v →
  bound' !! f = Some v.
Proof.
  revert params bound i.
  induction args as [|a args IH]; intros params bound i Hnd H Hf Hv;
    simpl in *; [done|].
  destruct params as [|p params]; [done|].
  apply NoDup_cons in Hnd as [Hp Hnd].
  destruct i as [|i]; simpl in *; [|by eapply IH].
  injection Hf as ->. injection Hv as ->.
  rewrite (bind_positional_lookup_beyond _ _ _ _ f H).
  - apply lookup_insert_eq.
  - intros j _ Hj. apply Hp. by eapply list_elem_of_lookup_2.
Qed.

(** What a constructed record holds for an attribute to which the call
    bound [v]: [v] itself, except that [NOTHING] bound to an attribute
    with a factory is replaced by the factory's value. *)
Lemma TaskMetadata_getattr_bound args kwargs md bound f v :
  TaskMetadata_init args kwargs = Ok md →
  bind_arguments TaskMetadata_params args kwargs = Ok bound →
  f ∈ TaskMetadata_params →
  bound !! f = Some v →
  (v ≠ VNothing ∨ f = "name" → TaskMetadata_getattr md f = Ok v) ∧
  (v = VNothing → f ∈ ["inputs"; "outputs"] →
   TaskMetadata_getattr md f = Ok (VList [])) ∧
  (v = VNothing → f ∈ ["run_facets"; "job_facets"] →
   TaskMetadata_getattr md f = Ok (VDict ∅)).
Proof.
  intros (bound' & n & Hb & Hn & ->)%TaskMetadata_init_Ok Hb' Hin Hv.
  assert (bound' = bound) as -> by congruence.
  assert (Hstored : ∀ d, v ≠ VNothing → from_factory d (Some v) = v).
  { intros d Hne. unfold from_factory. simpl. by destruct v. }
  unfold TaskMetadata_params in Hin. unfold TaskMetadata_getattr.
  repeat (apply elem_of_cons in Hin as [->|Hin]);
    [..|by apply elem_of_nil in Hin]; simpl; rewrite ?Hv, ?Hn.
  all: split;
    [intros [Hne|Hname];
       [try (by rewrite Hstored); congruence | try done; congruence]|].
  all: split; intros -> Hf; try reflexivity.
  all: repeat (apply elem_of_cons in Hf as [?|Hf]; [done|]).
  all: by apply elem_of_nil in Hf.
Qed.

Lemma TaskMetadata_bound_keyword args kwargs bound f v :
  bind_arguments TaskMetadata_params args kwargs = Ok bound →
  (f, v) ∈ kwargs →
  f ∈ TaskMetadata_params ∧ bound !! f = Some v.
Proof.
  unfold bind_arguments. intros Hb Hin.
  destruct (bind_positional _ args ∅) as [b0|]; [|done]. split.
  - apply bind_keywords_Ok_inv in Hb as [_ Hkw].
    apply Hkw, list_elem_of_fmap. by exists (f, v).
  - by eapply bind_keywords_lookup_pair.
Qed.

Lemma TaskMetadata_bound_positional args kwargs bound f v i :
  bind_arguments TaskMetadata_params args kwargs = Ok bound →
  TaskMetadata_params !! i = Some f →
  args !! i = Some v →
  f ∈ TaskMetadata_params ∧ bound !! f = Some v.
Proof.
  unfold bind_arguments. intros Hb Hf Hv.
  destruct (bind_positional _ args ∅) as [b0|] eqn:Hp; [|done]. split.
  - by eapply list_elem_of_lookup_2.
  - apply (bind_keywords_preserves _ _ _ _ _ _ Hb).
    by eapply bind_positional_lookup_at; [apply TaskMetadata_params_NoDup|..].
Qed.

(** X3: an attribute passed by keyword reads back as the value passed,
    with one exception: [NOTHING] passed for an attribute that has a
    factory reads back as the factory's empty list or dict. *)
Theorem TaskMetadata_keyword_round_trip args kwargs md f v :
  TaskMetadata_init args kwargs = Ok md →
  (f, v) ∈ kwargs →
  (v ≠ VNothing ∨ f = "name" → TaskMetadata_getattr md f = Ok v) ∧
  (v = VNothing → f ∈ ["inputs"; "outputs"] →
   TaskMetadata_getattr md f = Ok (VList [])) ∧
  (v = VNothing → f ∈ ["run_facets"; "job_facets"] →
   TaskMetadata_getattr md f = Ok (VDict ∅)).
Proof.
  intros Hmd Hin.
  destruct (TaskMetadata_init_Ok _ _ _ Hmd) as (bound & n & Hb & _ & _).
  destruct (TaskMetadata_bound_keyword _ _ _ _ _ Hb Hin) as [Hf Hv].
  by apply (TaskMetadata_getattr_bound _ _ _ _ _ _ Hmd Hb).
Qed.

Lemma TaskMetadata_keyword_round_trip_witness :
  ∃ md, TaskMetadata_init [VStr "load_events"]
          [("job_facets", VDict {["sql" := Facet "SELECT 1"]});
           ("inputs", VNothing)] = Ok md ∧
        TaskMetadata_getattr md "job_facets"
          = Ok (VDict {["sql" := Facet "SELECT 1"]}) ∧
        TaskMetadata_getattr md "inputs" = Ok (VList []).
Proof.
  destruct (TaskMetadata_init [VStr "load_events"]
              [("job_facets", VDict {["sql" := Facet "SELECT 1"]});
               ("inputs", VNothing)])
    as [md|] eqn:Hmd; [|by vm_compute in Hmd].
  exists md. split; [reflexivity|]. split.
  - apply (TaskMetadata_keyword_round_trip _ _ _ _ _ Hmd).
    + apply elem_of_cons. by left.
    + by left.
  - apply (TaskMetadata_keyword_round_trip _ _ _ "inputs" VNothing Hmd).
    + apply elem_of_cons. right. apply elem_of_cons. by left.
    + reflexivity.
    + apply elem_of_cons. by left.
Defined.

(** X4: the [i]-th positional argument reads back as the [i]-th
    attribute in declaration order, with the same exception: [NOTHING]
    passed for an attribute that has a factory reads back as the
    factory's empty list or dict. *)
Theorem TaskMetadata_positional_round_trip args kwargs md f v i :
  TaskMetadata_init args kwargs = Ok md →
  TaskMetadata_params !! i = Some f →
  args !! i = Some v →
  (v ≠ VNothing ∨ f = "name" → TaskMetadata_getattr md f = Ok v) ∧
  (v = VNothing → f ∈ ["inputs"; "outputs"] →
   TaskMetadata_getattr md f = Ok (VList [])) ∧
  (v = VNothing → f ∈ ["run_facets"; "job_facets"] →
   TaskMetadata_getattr md f = Ok (VDict ∅)).
Proof.
  intros Hmd Hf Hv.
  destruct (TaskMetadata_init_Ok _ _ _ Hmd) as (bound & n & Hb & _ & _).
  destruct (TaskMetadata_bound_positional _ _ _ _ _ _ Hb Hf Hv) as [Hin Hbv].
  by apply (TaskMetadata_getattr_bound _ _ _ _ _ _ Hmd Hb).
Qed.

Lemma TaskMetadata_positional_round_trip_witness :
  ∃ md, TaskMetadata_init
          [VStr "load_events"; VList [mkDataset "bigquery" "project.ds.in"];
           VList []; VNothing]
          [] = Ok md ∧
        TaskMetadata_getattr md "inputs"
          = Ok (VList [mkDataset "bigquery" "project.ds.in"]) ∧
        TaskMetadata_getattr md "run_facets" = Ok (VDict ∅).
Proof.
  destruct (TaskMetadata_init
              [VStr "load_events";
               VList [mkDataset "bigquery" "project.ds.in"];
               VList []; VNothing] [])
    as [md|] eqn:Hmd; [|by vm_compute in Hmd].
  exists md. split; [reflexivity|]. split.
  - apply (TaskMetadata_positional_round_trip _ _ _ _ _ 1 Hmd);
      [reflexivity..|by left].
  - apply (TaskMetadata_positional_round_trip _ _ _ "run_facets" VNothing 3
             Hmd); [reflexivity..|].
    apply elem_of_cons. by left.
Defined.

(** ** Keyword order, and keywords against positions *)

Lemma bind_keywords_Ok_union params kwargs bound bound' :
  bind_keywords params kwargs bound = Ok bound' →
  bound' = list_to_map kwargs ∪ bound.
Proof.
  revert bound.
  induction kwargs as [|[k v] kwargs IH]; intros bound H.
  - simpl in *. rewrite (left_id_L ∅ (∪)). congruence.
  - pose proof (bind_keywords_Ok_inv _ _ _ _ H) as [Hnd _].
    simpl in Hnd. apply NoDup_cons in Hnd as [Hfresh _].
    simpl in H. case_bool_decide; [|done].
    destruct (bound !! k) eqn:Hk; [done|].
    rewrite (IH _ H), list_to_map_cons, <- insert_union_l.
    symmetry. by apply insert_union_r, not_elem_of_list_to_map_1.
Qed.

Lemma bind_keywords_permutation params kwargs kwargs' bound :
  kwargs ≡ₚ kwargs' →
  bind_keywords params kwargs bound = bind_keywords params kwargs' bound.
Proof.
  assert (Hone : ∀ l l' b', l ≡ₚ l' →
            bind_keywords params l bound = Ok b' →
            bind_keywords params l' bound = Ok b').
  { intros l l' b' Hperm Hl.
    destruct (bind_keywords_Ok_inv _ _ _ _ Hl) as [Hnd Hkw].
    destruct (bind_keywords_succeeds params l' bound) as [b'' Hl'].
    - by rewrite <- Hperm.
    - intros k Hk. apply Hkw. by rewrite Hperm.
    - rewrite Hl'. f_equal.
      rewrite (bind_keywords_Ok_union _ _ _ _ Hl).
      rewrite (bind_keywords_Ok_union _ _ _ _ Hl').
      f_equal. symmetry. by apply list_to_map_proper. }
  intros Hperm.
  destruct (bind_keywords params kwargs bound) as [b|e] eqn:Hl.
  - symmetry. by eapply Hone.
  - destruct (bind_keywords params kwargs' bound) as [b'|e'] eqn:Hl'.
    + symmetry in Hperm. rewrite (Hone _ _ _ Hperm Hl') in Hl. done.
    + by rewrite (bind_keywords_error _ _ _ _ Hl),
                 (bind_keywords_error _ _ _ _ Hl').
Qed.

(** X5: the order in which keyword arguments are written does not matter:
    reordering them gives the same record, or the same [TypeError]. *)
Theorem TaskMetadata_keyword_order_irrelevant args kwargs kwargs' :
  kwargs ≡ₚ kwargs' →
  TaskMetadata_init args kwargs = TaskMetadata_init args kwargs'.
Proof.
  intros Hperm. unfold TaskMetadata_init, bind_arguments.
  destruct (bind_positional _ args ∅) as [b0|]; [|done].
  by rewrite (bind_keywords_permutation _ _ _ _ Hperm).
Qed.

Lemma TaskMetadata_keyword_order_irrelevant_witness :
  TaskMetadata_init []
    [("name", VStr "load_events"); ("outputs", VList [])]
  = TaskMetadata_init []
      [("outputs", VList []); ("name", VStr "load_events")].
Proof.
  apply (TaskMetadata_keyword_order_irrelevant []). apply perm_swap.
Defined.

Lemma bind_positional_snoc params args bound f v :
  params !! length args = Some f →
  bind_positional params (args ++ [v]) bound =
    match bind_positional params args bound with
    | Ok b => Ok (<[f := v]> b)
    | Raise e => Raise e
    end.
Proof.
  revert params bound.
  induction args as [|a args IH]; intros params bound Hf; simpl in *.
  - destruct params as [|p params]; [done|]. simpl in Hf. congruence.
  - destruct params as [|p params]; [done|]. by apply IH.
Qed.

(** X6: passing an attribute as the next positional argument or by
    keyword is the same call. *)
Theorem TaskMetadata_keyword_as_next_positional args kwargs f v :
  TaskMetadata_params !! length args = Some f →
  TaskMetadata_init (args ++ [v]) kwargs
  = TaskMetadata_init args ((f, v) :: kwargs).
Proof.
  intros Hf. unfold TaskMetadata_init, bind_arguments.
  rewrite (bind_positional_snoc _ _ _ _ _ Hf).
  destruct (bind_positional _ args ∅) as [b0|] eqn:Hp; [|done].
  simpl. rewrite bool_decide_eq_true_2 by by eapply list_elem_of_lookup_2.
  rewrite (bind_positional_lookup_beyond _ _ _ _ f Hp), lookup_empty; [done|].
  intros i Hi Hif.
  pose proof (NoDup_lookup _ _ _ _ TaskMetadata_params_NoDup Hif Hf). lia.
Qed.

Lemma TaskMetadata_keyword_as_next_positional_witness :
  TaskMetadata_init ([VStr "load_events"] ++ [VList []]) []
  = TaskMetadata_init [VStr "load_events"] [("inputs", VList [])].
Proof.
  apply (TaskMetadata_keyword_as_next_positional [VStr "load_events"]).
  reflexivity.
Defined.

(** ** validate: errors, dependence on the task, repetition *)

Lemma class_name_of_heap v h r h' :
  class_name_of v h = (r, h') → h' = h.
Proof.
  unfold class_name_of. destruct v; try (by intros [= _ <-]).
  destruct (h !! l); by intros [= _ <-].
Qed.

(** [validate], with assertions enabled, on an instance whose [operator]
    attribute holds any value of class name [n]. *)
Lemma BaseExtractor_validate_named cls self e v n h :
  h !! self = Some e →
  obj_attrs e !! "operator" = Some v →
  class_name_of v h = (Ok n, h) →
  BaseExtractor_validate true cls self h =
    match get_operator_classnames cls h with
    | (Ok classnames, h') =>
        (if py_in n classnames then Ok tt else Raise AssertionError, h')
    | (Raise x, h') => (Raise x, h')
    end.
Proof.
  intros Hself Hop Hn.
  unfold BaseExtractor_validate, py_assert, bind, getattr.
  rewrite Hself, Hop, Hn.
  destruct (get_operator_classnames cls h) as [[classnames|x] h']; [|done].
  unfold ret. by destruct (py_in _ _).
Qed.

(** X7: with assertions enabled, an exception raised by
    [get_operator_classnames] leaves [validate] as it is; in particular
    [validate] on an extractor whose class declares no operator class
    names raises [NotImplementedError], not [AssertionError], whatever
    the task. *)
Theorem validate_propagates_classnames_error cls self e v n h :
  h !! self = Some e →
  obj_attrs e !! "operator" = Some v →
  class_name_of v h = (Ok n, h) →
  (∀ x h', get_operator_classnames cls h = (Raise x, h') →
           BaseExtractor_validate true cls self h = (Raise x, h')) ∧
  (cls_get_operator_classnames cls = None →
   BaseExtractor_validate true cls self h = (Raise NotImplementedError, h)).
Proof.
  intros Hself Hop Hn.
  rewrite (BaseExtractor_validate_named _ _ _ _ _ _ Hself Hop Hn).
  split.
  - intros x h' Hx. by rewrite Hx.
  - intros Hnone. unfold get_operator_classnames. by rewrite Hnone.
Qed.

Lemma validate_propagates_classnames_error_witness :
  BaseExtractor_validate true UndeclaredExtractor 3%positive
    (bound_heap "UndeclaredExtractor" 1%positive)
  = (Raise NotImplementedError, bound_heap "UndeclaredExtractor" 1%positive).
Proof.
  apply (validate_propagates_classnames_error UndeclaredExtractor 3%positive
           {| obj_class := "UndeclaredExtractor";
              obj_attrs := {["operator" := VRef 1%positive]} |}
           (VRef 1%positive) "BigQueryOperator"
           (bound_heap "UndeclaredExtractor" 1%positive));
    reflexivity.
Defined.

(** X8: in either interpreter mode, the outcome of [validate] depends on
    the task only through its class name: two extractors of one class,
    bound to values of the same class name, validate alike, whatever else
    the two tasks hold. *)
Theorem validate_depends_on_class_name_only
    debug cls classnames n self1 e1 v1 h1 h1' self2 e2 v2 h2 h2' :
  h1 !! self1 = Some e1 →
  obj_attrs e1 !! "operator" = Some v1 →
  class_name_of v1 h1 = (Ok n, h1) →
  get_operator_classnames cls h1 = (Ok classnames, h1') →
  h2 !! self2 = Some e2 →
  obj_attrs e2 !! "operator" = Some v2 →
  class_name_of v2 h2 = (Ok n, h2) →
  get_operator_classnames cls h2 = (Ok classnames, h2') →
  (BaseExtractor_validate debug cls self1 h1).1
  = (BaseExtractor_validate debug cls self2 h2).1.
Proof.
  intros Hs1 Ho1 Hn1 Hc1 Hs2 Ho2 Hn2 Hc2.
  destruct debug; [|done].
  rewrite (BaseExtractor_validate_named _ _ _ _ _ _ Hs1 Ho1 Hn1), Hc1.
  by rewrite (BaseExtractor_validate_named _ _ _ _ _ _ Hs2 Ho2 Hn2), Hc2.
Qed.

Lemma validate_depends_on_class_name_only_witness :
  (BaseExtractor_validate true BigQueryExtractor 3%positive
     (bound_heap "BigQueryExtractor" 1%positive)).1
  = (BaseExtractor_validate true BigQueryExtractor 3%positive
       other_bigquery_heap).1.
Proof.
  apply (validate_depends_on_class_name_only true BigQueryExtractor
           ["BigQueryOperator"; "BigQueryExecuteQueryOperator"]
           "BigQueryOperator"
           3%positive
           {| obj_class := "BigQueryExtractor";
              obj_attrs := {["operator" := VRef 1%positive]} |}
           (VRef 1%positive)
           (bound_heap "BigQueryExtractor" 1%positive)
           (bound_heap "BigQueryExtractor" 1%positive)
           3%positive
           {| obj_class := "BigQueryExtractor";
              obj_attrs := {["operator" := VRef 1%positive]} |}
           (VRef 1%positive)
           other_bigquery_heap other_bigquery_heap);
    reflexivity.
Defined.

(** X9: [validate] can be repeated: when [get_operator_classnames] does
    not write to the heap, [validate] run in the heap a first [validate]
    left gives the outcome and the heap of the first. *)
Theorem validate_twice debug cls self h r :
  get_operator_classnames cls h = (r, h) →
  BaseExtractor_validate debug cls self
    (BaseExtractor_validate debug cls self h).2
  = BaseExtractor_validate debug cls self h.
Proof.
  intros Hpure.
  destruct (BaseExtractor_validate_heap debug cls self h) as [->| ->];
    [done | by rewrite Hpure].
Qed.

Lemma validate_twice_witness :
  BaseExtractor_validate true BigQueryExtractor 3%positive
    (BaseExtractor_validate true BigQueryExtractor 3%positive
       (bound_heap "BigQueryExtractor" 1%positive)).2
  = (Ok tt, bound_heap "BigQueryExtractor" 1%positive).
Proof.
  rewrite (validate_twice true BigQueryExtractor 3%positive
             (bound_heap "BigQueryExtractor" 1%positive)
             (Ok ["BigQueryOperator"; "BigQueryExecuteQueryOperator"])
             eq_refl).
  reflexivity.
Defined.

(** ** Construction: what patch sees, and separate instances *)

Lemma validate_constructed_witness :
  (let* self := instantiate plain_LoggingMixin_init BigQueryExtractor
                  (VRef 2%positive) in
   BaseExtractor_validate true BigQueryExtractor self) sample_heap
  = (Raise AssertionError,
     with_instance plain_LoggingMixin_init BigQueryExtractor
       (VRef 2%positive) sample_heap).
Proof.
  apply (validate_constructed plain_LoggingMixin_init BigQueryExtractor
           2%positive postgres_operator
           ["BigQueryOperator"; "BigQueryExecuteQueryOperator"]
           sample_heap
           (with_instance plain_LoggingMixin_init BigQueryExtractor
              (VRef 2%positive) sample_heap)
           (λ self,
              let* operator := getattr self "operator" in
              match operator with
              | VRef o =>
                  let* task_id := getattr o "task_id" in
                  let* md := lift_result (TaskMetadata_init [task_id] []) in
                  ret (Some md)
              | _ => ret None
              end));
    reflexivity.
Defined.

(** X11: inside [patch], [self.operator] is the constructor's argument:
    a [patch] that starts by reading [self.operator] behaves, during
    construction, as one that is handed the operator directly. *)
Theorem patch_reads_constructor_operator
    LoggingMixin_init cls operator
    (k : pyval → loc → M unit) h :
  instantiate LoggingMixin_init
    (with_patch cls (λ self,
       let* op := getattr self "operator" in k op self))
    operator h
  = instantiate LoggingMixin_init (with_patch cls (k operator)) operator h.
Proof.
  destruct (cls_extract cls) as [f|] eqn:Hf.
  - rewrite !(instantiate_eval _ _ _ _ f) by done.
    unfold patch. simpl. unfold bind at 1, getattr, with_instance.
    rewrite lookup_insert_eq. simpl. by rewrite lookup_insert_eq.
  - by rewrite !instantiate_abstract.
Qed.

Lemma instantiate_unpatched LoggingMixin_init cls operator h f :
  cls_extract cls = Some f →
  cls_patch cls = None →
  instantiate LoggingMixin_init cls operator h
  = (Ok (fresh (dom h)), with_instance LoggingMixin_init cls operator h).
Proof.
  intros Hf Hp.
  by rewrite (instantiate_eval _ _ _ _ f Hf), (patch_base _ _ _ Hp).
Qed.

(** X12: two extractors constructed one after the other, of classes that
    do not define [patch], are separate objects: their locations differ,
    each holds the operator it was constructed with, and every object that
    existed before is unchanged. *)
Theorem instances_are_separate
    LoggingMixin_init cls1 cls2 op1 op2 f1 f2 h :
  cls_extract cls1 = Some f1 →
  cls_patch cls1 = None →
  cls_extract cls2 = Some f2 →
  cls_patch cls2 = None →
  ∃ s1 s2 h',
    (let* a := instantiate LoggingMixin_init cls1 op1 in
     let* b := instantiate LoggingMixin_init cls2 op2 in
     ret (a, b)) h = (Ok (s1, s2), h') ∧
    s1 ≠ s2 ∧
    getattr s1 "operator" h' = (Ok op1, h') ∧
    getattr s2 "operator" h' = (Ok op2, h') ∧
    ∀ l, is_Some (h !! l) → h' !! l = h !! l.
Proof.
  intros Hf1 Hp1 Hf2 Hp2.
  set (s1 := fresh (dom h)).
  set (h1 := with_instance LoggingMixin_init cls1 op1 h).
  set (s2 := fresh (dom h1)).
  exists s1, s2, (with_instance LoggingMixin_init cls2 op2 h1).
  assert (Hs1 : h1 !! s1 = Some (bound_instance LoggingMixin_init cls1 op1))
    by apply lookup_insert_eq.
  assert (Hne : s2 ≠ s1).
  { intros Heq. pose proof (fresh_location h1) as Hfresh.
    fold s2 in Hfresh. rewrite Heq in Hfresh. congruence. }
  split; [|split; [done|split; [|split]]].
  - unfold bind.
    rewrite (instantiate_unpatched _ _ _ _ _ Hf1 Hp1).
    by rewrite (instantiate_unpatched _ _ _ _ _ Hf2 Hp2).
  - unfold getattr, with_instance at 1 3. fold s2.
    rewrite lookup_insert_ne by done. rewrite Hs1. simpl.
    by rewrite lookup_insert_eq.
  - unfold getattr, with_instance at 1 3. fold s2.
    rewrite lookup_insert_eq. simpl. by rewrite lookup_insert_eq.
  - intros l [ob Hl]. unfold with_instance at 1. fold s2.
    assert (l ≠ s1).
    { intros ->. unfold s1 in Hl. by rewrite fresh_location in Hl. }
    assert (h1 !! l = h !! l) as Hl1.
    { unfold h1, with_instance. fold s1. by rewrite lookup_insert_ne. }
    rewrite lookup_insert_ne; [done|].
    intros <-. pose proof (fresh_location h1) as Hfresh. fold s2 in Hfresh.
    congruence.
Qed.

Lemma instances_are_separate_witness :
  ∃ s1 s2 h',
    (let* a := instantiate sample_LoggingMixin_init BigQueryExtractor
                 (VRef 1%positive) in
     let* b := instantiate sample_LoggingMixin_init UndeclaredExtractor
                 (VRef 2%positive) in
     ret (a, b)) sample_heap = (Ok (s1, s2), h') ∧
    s1 ≠ s2 ∧
    getattr s1 "operator" h' = (Ok (VRef 1%positive), h') ∧
    getattr s2 "operator" h' = (Ok (VRef 2%positive), h') ∧
    ∀ l, is_Some (sample_heap !! l) → h' !! l = sample_heap !! l.
Proof.
  apply (instances_are_separate sample_LoggingMixin_init
           BigQueryExtractor UndeclaredExtractor
           (VRef 1%positive) (VRef 2%positive)
           (λ self,
              let* operator := getattr self "operator" in
              match operator with
              | VRef o =>
                  let* task_id := getattr o "task_id" in
                  let* md := lift_result (TaskMetadata_init [task_id] []) in
                  ret (Some md)
              | _ => ret None
              end)
           (λ _, ret None) sample_heap);
    reflexivity.
Defined.

(** ** The constructor invents nothing *)

(** X13: in a constructed record, [name] is a value the caller passed;
    [inputs] and [outputs] are each a value the caller passed or the
    empty list; [run_facets] and [job_facets] are each a value the caller
    passed or the empty dict. *)
Theorem TaskMetadata_attributes_passed_or_default args kwargs md :
  TaskMetadata_init args kwargs = Ok md →
  (name md ∈ args ∨ name md ∈ kwargs.*2) ∧
  (inputs md = VList [] ∨ inputs md ∈ args ∨ inputs md ∈ kwargs.*2) ∧
  (outputs md = VList [] ∨ outputs md ∈ args ∨ outputs md ∈ kwargs.*2) ∧
  (run_facets md = VDict ∅ ∨
   run_facets md ∈ args ∨ run_facets md ∈ kwargs.*2) ∧
  (job_facets md = VDict ∅ ∨
   job_facets md ∈ args ∨ job_facets md ∈ kwargs.*2).
Proof.
  intros (bound & n & Hb & Hn & ->)%TaskMetadata_init_Ok. simpl.
  split; [by eapply bind_arguments_values|].
  repeat split;
    match goal with
    | |- from_factory ?d (bound !! ?g) = _ ∨ _ =>
        destruct (from_factory_cases d (bound !! g)) as [-> | Hg];
          [by left | right; by eapply bind_arguments_values]
    end.
Qed.

Lemma TaskMetadata_attributes_passed_or_default_witness :
  let args := [VStr "load_events"; VList []] in
  let kwargs := [("job_facets", VDict {["sql" := Facet "SELECT 1"]})] in
  ∃ md, TaskMetadata_init args kwargs = Ok md ∧
        (name md ∈ args ∨ name md ∈ kwargs.*2) ∧
        (run_facets md = VDict ∅ ∨
         run_facets md ∈ args ∨ run_facets md ∈ kwargs.*2).
Proof.
  intros args kwargs.
  destruct (TaskMetadata_init args kwargs) as [md|] eqn:Hmd;
    [|by vm_compute in Hmd].
  exists md. split; [reflexivity|].
  destruct (TaskMetadata_attributes_passed_or_default args kwargs md Hmd)
    as (Hname & _ & _ & Hrun & _).
  by split.
Defined.
